(** * EMGdecomPy, [emgdecompy/viz.py]: MUAP shape extraction and paginated plots

    A shallow embedding of the two functions of [viz.py]:

    - [muap_dict raw pt l] cuts a window of [2*l] samples around every firing
      index of every motor unit and averages it over the channels;
    - [muap_plot shape_dict mu_index page count] pages through the shapes of
      one motor unit and builds the facet chart.

    NumPy arrays are lists with their shape written out, Python exceptions are
    the constructors of [exn], the caller's [pt] array (which [muap_dict]
    updates in place) is threaded as state, and the dictionary that
    [muap_dict] returns is an association list in insertion order.

    [pt] is a 1-d array of objects, one integer array of firing indices per
    motor unit (the units fire different numbers of times), each of any
    shape.  The half-width [l], a number of samples, is a natural number;
    [mu_index], [page] and [count] are Python integers.

    Integers are unbounded ([Z]): the source does not fix the dtype of the
    firing-time arrays.  Amplitudes are kept abstract (a type [A] with the
    column reduction [mean] that NumPy applies along the channel axis), so
    that nothing below depends on floating-point rounding.
    [flatten_signal], imported from another module, is a parameter. *)

From Stdlib Require Import ZArith QArith Lia.
From stdpp Require Import base tactics option list list_numbers strings pretty.

Local Open Scope Z_scope.
Local Open Scope nat_scope.

(** ** Python exceptions *)

Inductive exn : Type :=
  | IndexError_tuple    (* IndexError: tuple index out of range *)
  | IndexError_bounds   (* IndexError: index k is out of bounds for axis with size T *)
  | TypeError_iter0d    (* TypeError: iteration over a 0-d array *)
  | ValueError_arange   (* ValueError: np.arange called with array bounds (the truth
                           value of an array with more than one element is ambiguous) *)
  | ValueError_reshape  (* ValueError: cannot reshape array of size s into shape (n, w) *)
  | ValueError_lengths  (* ValueError: All arrays must be of the same length *)
  | KeyError (key : string)
  | NameError (name : string) (* NameError: name 'l' is not defined *)
  | TypeError_operand   (* TypeError: unsupported operand type(s) *)
  | ZeroDivisionError.

Inductive result (X : Type) : Type :=
  | Ok (x : X)
  | Err (e : exn).
Arguments Ok {X} x.
Arguments Err {X} e.

#[global] Instance result_ret : MRet result := λ X x, Ok x.
#[global] Instance result_bind : MBind result := λ X Y f m,
  match m with
  | Ok x => f x
  | Err e => Err e
  end.

(** ** NumPy integer arrays *)

(** An integer array: its shape and its items in row-major order. *)
Record ndarray : Type := NdArray { shape : list nat; data : list Z }.

Definition size_of (sh : list nat) : nat := foldr Nat.mul 1 sh.

(** NumPy keeps [len (data a) = prod (shape a)] for every array. *)
Definition wf_ndarray (a : ndarray) : Prop := length (data a) = size_of (shape a).

(** [a.squeeze()]: the axes of length one are dropped, the items stay. *)
Definition squeeze (a : ndarray) : ndarray :=
  NdArray (filter (λ d, d ≠ 1) (shape a)) (data a).

(** [a.shape[0]]: indexing the empty shape tuple of a 0-d array raises. *)
Definition shape0 (a : ndarray) : result nat :=
  match shape a with
  | [] => Err IndexError_tuple
  | n :: _ => Ok n
  end.

(** [n] consecutive rows of width [w]. *)
Fixpoint chunks {X : Type} (n w : nat) (xs : list X) : list (list X) :=
  match n with
  | O => []
  | S n' => take w xs :: chunks n' w (drop w xs)
  end.

(** Iterating an array walks its first axis; the items of a 1-d array come
    out as 0-d arrays (scalars). *)
Definition iter_axis0 (a : ndarray) : result (list ndarray) :=
  match shape a with
  | [] => Err TypeError_iter0d
  | n :: rest => Ok (NdArray rest <$> chunks n (size_of rest) (data a))
  end.

(** [np.arange(start, stop)] and [np.arange(stop)]. *)
Definition arange (start stop : Z) : list Z := seqZ start (stop - start).

(** [np.arange(k - l, k + l)] for an item [k] of the iteration: the bounds
    must be scalars.  (After [squeeze] a row that is not 0-d has 0 or at least
    2 items, which [np.arange] rejects.) *)
Definition arange_around (k : ndarray) (l : nat) : result (list Z) :=
  match shape k, data k with
  | [], [v] => Ok (arange (v - Z.of_nat l) (v + Z.of_nat l))
  | _, _ => Err ValueError_arange
  end.

(** [np.zeros((n, w), dtype="int")], [np.full(w, v)], [np.tile(xs, n)] and
    [m.flatten()]. *)
Definition zeros2 (n w : nat) : list (list Z) := replicate n (replicate w 0%Z).
Definition full (w : nat) (v : Z) : list Z := replicate w v.
Definition tile {X : Type} (xs : list X) (n : nat) : list X := concat (replicate n xs).
Definition flatten {X : Type} (m : list (list X)) : list X := concat m.

(** The loop
<<
    for j, k in enumerate(pt[i]):
        ptl[j] = np.arange(k - l, k + l)
        peak_index[j] = np.full(l * 2, j)
>>
    on the two row tables; [j] is the position of [k] in the enumeration. *)
Fixpoint fill_rows (l : nat) (j : nat) (ks : list ndarray)
    (ptl peak_index : list (list Z)) : result (list (list Z) * list (list Z)) :=
  match ks with
  | [] => Ok (ptl, peak_index)
  | k :: ks' =>
      row ← arange_around k l;
      fill_rows l (S j) ks' (<[j := row]> ptl)
                (<[j := full (l * 2) (Z.of_nat j)]> peak_index)
  end.

(** Indexing an axis of length [T] with the integer [idx]: indices in
    [[-T, T)] are accepted, the negative ones count from the end. *)
Definition in_range (T : nat) (idx : Z) : Prop := (- Z.of_nat T ≤ idx < Z.of_nat T)%Z.

Definition wrap_index (T : nat) (idx : Z) : nat :=
  Z.to_nat (if decide (idx < 0)%Z then idx + Z.of_nat T else idx).

Definition index_axis (T : nat) (idx : Z) : result nat :=
  if decide (in_range T idx) then Ok (wrap_index T idx) else Err IndexError_bounds.

(** [m.reshape(n, w)] of a flat array. *)
Definition reshape2 {X : Type} (n w : nat) (xs : list X) : result (list (list X)) :=
  if decide (length xs = n * w) then Ok (chunks n w xs) else Err ValueError_reshape.

(** ** The caller's [pt]: state threaded through [muap_dict] *)

Definition M (X : Type) : Type := list ndarray → result X * list ndarray.

#[global] Instance M_ret : MRet M := λ X x pt, (Ok x, pt).
#[global] Instance M_bind : MBind M := λ X Y f m pt,
  match m pt with
  | (Ok x, pt') => f x pt'
  | (Err e, pt') => (Err e, pt')
  end.

(** [pt[i]] and [pt[i] = v] on the 1-d object array [pt]. *)
Definition pt_get (i : nat) : M ndarray := λ pt,
  match pt !! i with
  | Some a => (Ok a, pt)
  | None => (Err IndexError_bounds, pt)
  end.
Definition pt_set (i : nat) (v : ndarray) : M unit := λ pt,
  if decide (i < length pt) then (Ok (), <[i := v]> pt) else (Err IndexError_bounds, pt).
Definition lift {X : Type} (r : result X) : M X := λ pt, (r, pt).

(** [f"mu_{i}"] *)
Definition mu_key (i : Z) : string := "mu_" +:+ pretty i.

(** ** Names, integer division and slices in [muap_plot] *)

(** What a module-level name of [viz.py] can be bound to. *)
Inductive pyobj : Type :=
  | PyInt (z : Z)
  | PyModule (name : string)
  | PyFunction (name : string).

Definition namespace : Type := list (string * pyobj).

(** The names that [viz.py] binds at module level: its four imports and its
    two functions. *)
Definition viz_globals : namespace :=
  [("np", PyModule "numpy"); ("pd", PyModule "pandas"); ("alt", PyModule "altair");
   ("flatten_signal", PyFunction "emgdecompy.preprocessing.flatten_signal");
   ("muap_dict", PyFunction "emgdecompy.viz.muap_dict");
   ("muap_plot", PyFunction "emgdecompy.viz.muap_plot")].

(** Reading a name that the function does not assign: the module namespace
    decides (no built-in is called [l]). *)
Fixpoint load_global (name : string) (g : namespace) : result pyobj :=
  match g with
  | [] => Err (NameError name)
  | (n, v) :: g' => if decide (name = n) then Ok v else load_global name g'
  end.

Definition as_int (o : pyobj) : result Z :=
  match o with
  | PyInt z => Ok z
  | _ => Err TypeError_operand
  end.

(** [a // b] and [a % b] on Python integers round towards minus infinity,
    as [Z.div] and [Z.modulo] do. *)
Definition floordiv (a b : Z) : result Z :=
  if decide (b = 0%Z) then Err ZeroDivisionError else Ok (a `div` b)%Z.
Definition pymod (a b : Z) : result Z :=
  if decide (b = 0%Z) then Err ZeroDivisionError else Ok (a `mod` b)%Z.

(** A slice bound of [xs[start:stop]] on a sequence of length [len]. *)
Definition slice_bound (len : nat) (x : Z) : nat :=
  Z.to_nat (if decide (x < 0)%Z then Z.max (x + Z.of_nat len) 0 else Z.min x (Z.of_nat len)).

Definition py_slice {X : Type} (start stop : Z) (xs : list X) : list X :=
  let s := slice_bound (length xs) start in
  let e := slice_bound (length xs) stop in
  take (e - s) (drop s xs).

Section Viz.

(** Amplitudes and NumPy's reduction of one column of channel values. *)
Context {A : Type} `{!Inhabited A} (mean : list A → A).

(** The 2-d array that [flatten_signal] returns: one row per channel, each
    of [n_samples] amplitudes. *)
Record raw_signal : Type := RawSignal { n_samples : nat; channels : list (list A) }.

Definition wf_signal (raw : raw_signal) : Prop :=
  Forall (λ ch, length ch = n_samples raw) (channels raw).

(** [flatten_signal] is imported from [emgdecompy.preprocessing]. *)
Context {raw_source : Type} (flatten_signal : raw_source → raw_signal).

(** The inner dictionary [{"sample": .., "signal": .., "peak": ..}]. *)
Record shape_record : Type :=
  ShapeRecord { sample : list Z; signal : list A; peak : list Z }.

(** A Python [dict] with string keys, in insertion order. *)
Local Abbreviation dict := (list (string * shape_record)).

Fixpoint dict_set (k : string) (v : shape_record) (d : dict) : dict :=
  match d with
  | [] => [(k, v)]
  | (k', v') :: d' =>
      if decide (k = k') then (k, v) :: d' else (k', v') :: dict_set k v d'
  end.

Fixpoint dict_get (k : string) (d : dict) : result shape_record :=
  match d with
  | [] => Err (KeyError k)
  | (k', v') :: d' => if decide (k = k') then Ok v' else dict_get k d'
  end.

(** [raw[:, ptl]]: every channel read at the positions [ptl] of the time
    axis. *)
Definition take_columns (raw : raw_signal) (ptl : list Z) : result (list (list A)) :=
  ixs ← mapM (index_axis (n_samples raw)) ptl;
  Ok ((λ ch : list A, (λ t : nat, ch !!! t) <$> ixs) <$> channels raw).

(** [g.mean(axis=0)] of a table with [width] columns. *)
Definition mean_axis0 (g : list (list A)) (width : nat) : list A :=
  (λ p, mean ((λ row : list A, row !!! p) <$> g)) <$> seq 0 width.

(** The body of the loop over the motor units, after [pt[i]] was squeezed. *)
Definition muap_shape (raw : raw_signal) (l : nat) (a : ndarray) : result shape_record :=
  n ← shape0 a;
  let ptl := zeros2 n (l * 2) in
  let sample := arange 0 (Z.of_nat (l * 2)) in
  let peak_index := zeros2 n (l * 2) in
  ks ← iter_axis0 a;
  '(ptl, peak_index) ← fill_rows l 0 ks ptl peak_index;
  let ptl := flatten ptl in
  let peak_index := flatten peak_index in
  let sample := arange 0 (Z.of_nat (l * 2)) in
  let sample := tile sample n in
  g ← take_columns raw ptl;
  sig ← reshape2 n (l * 2) (mean_axis0 g (length ptl));
  Ok (ShapeRecord sample (flatten sig) peak_index).

Definition muap_unit (raw : raw_signal) (l : nat) (i : nat) (shape_dict : dict) : M dict :=
  a ← pt_get i;
  pt_set i (squeeze a);;
  a ← pt_get i;
  rec ← lift (muap_shape raw l a);
  mret (dict_set (mu_key (Z.of_nat i)) rec shape_dict).

Fixpoint muap_units (raw : raw_signal) (l : nat) (units : list nat) (shape_dict : dict)
    : M dict :=
  match units with
  | [] => mret shape_dict
  | i :: units' =>
      shape_dict ← muap_unit raw l i shape_dict;
      muap_units raw l units' shape_dict
  end.

(** [muap_dict(raw, pt, l)]: the returned dictionary (or the exception) and
    the caller's [pt] after the call. *)
Definition muap_dict (raw : raw_source) (pt : list ndarray) (l : nat)
    : result dict * list ndarray :=
  let raw := flatten_signal raw in
  muap_units raw l (seq 0 (length pt)) [] pt.

(** ** Vocabulary of the statements about [muap_dict] *)

(** The sample positions read for a firing index [k]: [k - l, .., k + l - 1]. *)
Definition window (l : nat) (k : Z) : list Z := arange (k - Z.of_nat l) (k + Z.of_nat l).

(** [raw[:, t]]: the amplitudes of all channels at sample [t]. *)
Definition column (raw : raw_signal) (t : nat) : list A :=
  (λ ch : list A, ch !!! t) <$> channels raw.

(** The record of a motor unit with firing indices [ks], all of whose windows
    can be read. *)
Definition unit_record (raw : raw_signal) (l : nat) (ks : list Z) : shape_record :=
  ShapeRecord
    (tile (arange 0 (Z.of_nat (l * 2))) (length ks))
    ((λ idx, mean (column raw (wrap_index (n_samples raw) idx))) <$> concat (window l <$> ks))
    (concat ((λ j, full (l * 2) (Z.of_nat j)) <$> seq 0 (length ks))).

(** The entries that a run over readable [units], the first of which is
    unit [i], appends to the dictionary. *)
Definition entries (raw : raw_signal) (l : nat) (i : nat) (units : list ndarray) : dict :=
  imap (λ j a, (mu_key (Z.of_nat (i + j)), unit_record raw l (data a))) units.

(** The loop over the motor units as a recursion on the units that are left:
    [i] is the position of the first of them, the second component is what
    the call leaves in their places in [pt]. *)
Fixpoint shapes_from (raw : raw_signal) (l : nat) (i : nat) (units : list ndarray)
    (shape_dict : dict) : result dict * list ndarray :=
  match units with
  | [] => (Ok shape_dict, [])
  | a :: units' =>
      match muap_shape raw l (squeeze a) with
      | Ok rec =>
          let '(r, pt') :=
            shapes_from raw l (S i) units' (dict_set (mu_key (Z.of_nat i)) rec shape_dict) in
          (r, squeeze a :: pt')
      | Err e => (Err e, squeeze a :: units')
      end
  end.

(** Shapes whose iteration yields scalars: one axis, or no row at all. *)
Definition rows_are_scalars (sh : list nat) : Prop :=
  match sh with
  | [_] => True
  | 0 :: _ => True
  | _ => False
  end.

(** A firing-time array that [squeeze] brings to one dimension: shape
    [(n,)], [(1, n)], [(n, 1)], ... with [n ≠ 1] (an array with a single
    item is squeezed to 0-d), or that holds no item and has no rows. *)
Definition scalar_rows (a : ndarray) : Prop := rows_are_scalars (shape (squeeze a)).

(** The window of [k] stays inside [[-T, T)], the range of positions that
    indexing the time axis accepts (an empty window reads nothing). *)
Definition window_readable (T l : nat) (k : Z) : Prop :=
  l = 0 ∨ (- Z.of_nat T ≤ k - Z.of_nat l ∧ k + Z.of_nat l ≤ Z.of_nat T)%Z.

(** The inputs that [muap_dict] can read: every motor unit is a (well-formed)
    array of scalar rows and every window is readable.  These are the inputs
    on which [muap_dict] returns, see [muap_dict_returns_iff]. *)
Definition input_ok (raw : raw_signal) (l : nat) (pt : list ndarray) : Prop :=
  Forall (λ a, wf_ndarray a ∧ scalar_rows a
               ∧ Forall (window_readable (n_samples raw) l) (data a)) pt.

(** ** [muap_plot] *)

(** [pd.DataFrame(d)] of a dictionary of three columns: the columns must
    have one length; the frame is kept column by column. *)
Definition DataFrame (d : shape_record) : result shape_record :=
  if decide (length (sample d) = length (signal d) ∧ length (signal d) = length (peak d))
  then Ok d else Err ValueError_lengths.

Definition df_len (df : shape_record) : nat := length (sample df).

(** [df[start:stop]]: the rows at these positions. *)
Definition df_slice (start stop : Z) (df : shape_record) : shape_record :=
  ShapeRecord (py_slice start stop (sample df)) (py_slice start stop (signal df))
              (py_slice start stop (peak df)).

(** The facet chart, as far as it depends on the arguments: the rows drawn,
    the facet title and the number of columns ([count / 2], a true division);
    fonts and sizes are constants. *)
Record chart : Type :=
  Chart { chart_data : shape_record; chart_title : string;
          facet_title : string; facet_columns : Q }.

(** [muap_plot] returns a string or a chart. *)
Inductive plot_result : Type :=
  | Message (s : string)
  | Plot (c : chart).

(** [muap_plot(shape_dict, mu_index, page, count)] run in a module namespace
    [genv], where the name [l] of lines 87 and 93 is looked up. *)
Definition muap_plot_in (genv : namespace) (shape_dict : dict) (mu_index page count : Z)
    : result plot_result :=
  d ← dict_get (mu_key mu_index) shape_dict;
  mu_df ← DataFrame d;
  l ← load_global "l" genv ≫= as_int;
  let row_index :=
    ((page - 1) * (l * 2) * count, (page - 1) * (l * 2) * count + (l * 2) * count)%Z in
  if decide (count > 12)%Z then Ok (Message "Max plots per page is 12") else
  q ← floordiv (Z.of_nat (df_len mu_df)) (l * 2);
  q ← floordiv q count;
  r ← pymod 147 count;
  let last_page := (q + (if decide (r > 0) then 1 else 0))%Z in
  if decide (page > last_page)%Z
  then Ok (Message ("Last page is page " +:+ pretty last_page +:+ "."))
  else Ok (Plot (Chart (df_slice row_index.1 row_index.2 mu_df) "MUAP Shapes"
                       ("Page " +:+ pretty page +:+ " of " +:+ pretty last_page)
                       (inject_Z count / 2)%Q)).

(** [muap_plot] as [viz.py] defines it, in the namespace of its own module. *)
Definition muap_plot : dict → Z → Z → Z → result plot_result := muap_plot_in viz_globals.

End Viz.

Arguments raw_signal : clear implicits.
Arguments shape_record : clear implicits.
Abbreviation dict A := (list (string * shape_record A)).
Arguments chart : clear implicits.
Arguments plot_result : clear implicits.


(** The last page as the specification computes it: the events counted
    from the record's own [peak] sequence ([max(peak) + 1]), divided by the
    plots per page and rounded up. *)
Definition spec_total_events {A : Type} (rec : shape_record A) : Z :=
  (foldr Z.max (-1) (peak rec) + 1)%Z.
Definition spec_last_page {A : Type} (rec : shape_record A) (count : Z) : Z :=
  (spec_total_events rec `div` count
   + (if decide (spec_total_events rec `mod` count > 0) then 1 else 0))%Z.

(** ** A concrete instance: rational amplitudes *)

#[global] Instance Q_inhabited : Inhabited Q := populate 0%Q.

Definition mean_Q (xs : list Q) : Q :=
  Qred (foldr Qplus 0%Q xs / inject_Z (Z.of_nat (length xs))).

(** A signal of 4 channels and 100 samples; channel [c] holds
    [(c + 1) * t + c] at sample [t]. *)
Definition demo_channel (c : Z) : list Q :=
  (λ t, inject_Z ((c + 1) * t + c)) <$> seqZ 0 100.
Definition demo_raw : raw_signal Q := RawSignal 100 (demo_channel <$> [0; 1; 2; 3]%Z).

(** One motor unit firing at samples 20, 50 and 80, given as a row vector. *)
Definition demo_unit : ndarray := NdArray [1; 3] [20; 50; 80]%Z.
Definition demo_pt : list ndarray := [demo_unit].

(** Two motor units; the first fires at sample 2, closer to the start of
    the signal than a half-width of 5. *)
Definition low_unit : ndarray := NdArray [2] [2; 50]%Z.
Definition low_pt : list ndarray := [low_unit; demo_unit].

(** One motor unit whose second window ends after the last sample. *)
Definition late_unit : ndarray := NdArray [2] [50; 97]%Z.
Definition late_pt : list ndarray := [demo_unit; late_unit].

(** The shapes of [demo_pt] with half-width 5 (3 events), and the shapes of
    a unit with 12 events with half-width 1. *)
Definition shapes_of (pt : list ndarray) (l : nat) : dict Q :=
  match (muap_dict mean_Q id demo_raw pt l).1 with
  | Ok d => d
  | Err _ => []
  end.
Definition demo_shapes : dict Q := shapes_of demo_pt 5.
Definition twelve_unit : ndarray :=
  NdArray [12] [5; 10; 15; 20; 25; 30; 35; 40; 45; 50; 55; 60]%Z.
Definition twelve_shapes : dict Q := shapes_of [twelve_unit] 1.

(** The module namespace with [l] bound to an integer, as a caller could
    patch it. *)
Definition viz_globals_with_l (l : Z) : namespace := ("l", PyInt l) :: viz_globals.

(** Closed instances of [input_ok] and of its parts are settled by
    evaluation. *)
Ltac units_1d :=
  repeat first [ apply Forall_nil_2 | apply Forall_cons_2 | split | by vm_compute ].
Ltac readable :=
  repeat first
    [ apply Forall_nil_2
    | apply Forall_cons_2
    | split
    | by vm_compute
    | right; simpl; lia ].

(** * Facts about the NumPy operations *)

Lemma concat_chunks {X : Type} (n w : nat) (xs : list X) :
  length xs = n * w → concat (chunks n w xs) = xs.
Proof.
  revert xs. induction n as [|n IH]; intros xs Hlen; simpl in *.
  - by destruct xs.
  - rewrite IH, take_drop; [done|]. rewrite length_drop. lia.
Qed.

Lemma chunks_singletons {X : Type} (xs : list X) :
  chunks (length xs) 1 xs = (λ x, [x]) <$> xs.
Proof. induction xs as [|x xs IH]; simpl; [done|]. by rewrite drop_0, IH. Qed.

Lemma size_of_squeeze (sh : list nat) : size_of (filter (λ d, d ≠ 1) sh) = size_of sh.
Proof.
  induction sh as [|d sh IH]; [done|].
  rewrite filter_cons. destruct (decide (d ≠ 1)) as [|Hd]; simpl; [by rewrite IH|].
  assert (d = 1) as -> by lia. rewrite IH. lia.
Qed.

Lemma wf_squeeze (a : ndarray) : wf_ndarray a → wf_ndarray (squeeze a).
Proof. unfold wf_ndarray, squeeze. simpl. by rewrite size_of_squeeze. Qed.

Lemma squeeze_idemp (a : ndarray) : squeeze (squeeze a) = squeeze a.
Proof.
  unfold squeeze. simpl. f_equal.
  induction (shape a) as [|d sh IH]; [done|].
  rewrite filter_cons. destruct (decide (d ≠ 1)); [|done].
  rewrite filter_cons. destruct (decide (d ≠ 1)); [|done]. by rewrite IH.
Qed.

(** The items of a well-formed 1-d array come out of the iteration one by
    one, as scalars. *)
Lemma iter_axis0_1d (a : ndarray) (n : nat) :
  shape a = [n] → wf_ndarray a →
  iter_axis0 a = Ok ((λ k, NdArray [] [k]) <$> data a).
Proof.
  unfold iter_axis0, wf_ndarray. intros -> Hwf. simpl in *.
  replace n with (length (data a)) by lia.
  rewrite chunks_singletons, <- list_fmap_compose. done.
Qed.

Lemma length_window (l : nat) (k : Z) : length (window l k) = l * 2.
Proof. unfold window, arange. rewrite length_seqZ. lia. Qed.

Lemma length_windows (l : nat) (ks : list Z) :
  length (concat (window l <$> ks)) = length ks * (l * 2).
Proof.
  induction ks as [|k ks IH]; csimpl; [done|].
  rewrite length_app, length_window, IH. lia.
Qed.

(** The loop fills the rows from the top: after the items [ks] the rows
    [j ..] hold their windows and their positions. *)
Lemma fill_rows_spec (l : nat) (ks : list Z) :
  ∀ (j : nat) (ptl peak_index rest rest' : list (list Z)),
    length ptl = j → length peak_index = j →
    length rest = length ks → length rest' = length ks →
    fill_rows l j ((λ k, NdArray [] [k]) <$> ks) (ptl ++ rest) (peak_index ++ rest')
    = Ok (ptl ++ (window l <$> ks),
          peak_index ++ ((λ j', full (l * 2) (Z.of_nat j')) <$> seq j (length ks))).
Proof.
  induction ks as [|k ks IH]; intros j ptl pk rest rest' Hp Hk Hr Hr'.
  - destruct rest, rest'; simplify_eq/=. done.
  - destruct rest as [|r rest], rest' as [|r' rest']; try discriminate.
    simpl in Hr, Hr'. csimpl.
    rewrite !insert_app_r_alt by lia.
    replace (j - length ptl) with 0 by lia. replace (j - length pk) with 0 by lia.
    simpl. rewrite !(cons_middle _ ptl), !(cons_middle _ pk), !app_assoc.
    rewrite IH; rewrite ?length_app; simpl; try lia.
    by rewrite <- !app_assoc.
Qed.

Lemma bind_Ok {X Y : Type} (x : X) (f : X → result Y) : Ok x ≫= f = f x.
Proof. done. Qed.

Lemma mapM_cons {X Y : Type} (f : X → result Y) (x : X) (xs : list X) :
  mapM f (x :: xs) = y ← f x; ys ← mapM f xs; mret (y :: ys).
Proof. done. Qed.

Lemma index_axis_in (T : nat) (idx : Z) :
  in_range T idx → index_axis T idx = Ok (wrap_index T idx).
Proof. intros. unfold index_axis. by rewrite decide_True. Qed.

Lemma index_axis_out (T : nat) (idx : Z) :
  ¬ in_range T idx → index_axis T idx = Err IndexError_bounds.
Proof. intros. unfold index_axis. by rewrite decide_False. Qed.

Lemma mapM_index_axis_ok (T : nat) (idxs : list Z) :
  Forall (in_range T) idxs → mapM (index_axis T) idxs = Ok (wrap_index T <$> idxs).
Proof.
  induction 1 as [|idx idxs Hin _ IH]; [done|].
  rewrite mapM_cons, index_axis_in, bind_Ok, IH by done. done.
Qed.

Lemma mapM_index_axis_err (T : nat) (idxs : list Z) :
  Exists (λ idx, ¬ in_range T idx) idxs → mapM (index_axis T) idxs = Err IndexError_bounds.
Proof.
  induction 1 as [idx idxs Hout|idx idxs _ IH]; rewrite mapM_cons.
  - by rewrite index_axis_out.
  - destruct (decide (in_range T idx)).
    + by rewrite index_axis_in, bind_Ok, IH.
    + by rewrite index_axis_out.
Qed.

Lemma mapM_index_axis_inv (T : nat) (idxs : list Z) (ixs : list nat) :
  mapM (index_axis T) idxs = Ok ixs → ixs = wrap_index T <$> idxs.
Proof.
  destruct (decide (Forall (in_range T) idxs)) as [Hall|Hsome].
  - rewrite mapM_index_axis_ok by done. by intros [= <-].
  - apply not_Forall_Exists in Hsome; [|apply _].
    by rewrite mapM_index_axis_err.
Qed.

Lemma window_in_range (T l : nat) (k : Z) :
  window_readable T l k → Forall (in_range T) (window l k).
Proof.
  unfold window_readable, window, arange, in_range. intros [->|[Hlo Hhi]].
  - rewrite seqZ_nil by lia. constructor.
  - apply Forall_seqZ. lia.
Qed.

Lemma window_readable_inv (T l : nat) (k : Z) :
  Forall (in_range T) (window l k) → window_readable T l k.
Proof.
  unfold window_readable, window, arange, in_range. intros Hall.
  destruct l as [|l]; [by left|right].
  rewrite Forall_seqZ in Hall.
  pose proof (Hall (k - Z.of_nat (S l))%Z). pose proof (Hall (k + Z.of_nat (S l) - 1)%Z). lia.
Qed.

Lemma windows_readable (T l : nat) (ks : list Z) :
  Forall (in_range T) (concat (window l <$> ks)) → Forall (window_readable T l) ks.
Proof.
  induction ks as [|k ks IH]; csimpl; [constructor|].
  rewrite Forall_app. intros [Hk Hks]. constructor; [by apply window_readable_inv|by apply IH].
Qed.

Lemma windows_in_range (T l : nat) (ks : list Z) :
  Forall (window_readable T l) ks → Forall (in_range T) (concat (window l <$> ks)).
Proof.
  induction 1 as [|k ks Hk _ IH]; csimpl; [constructor|].
  apply Forall_app. split; [by apply window_in_range|done].
Qed.

(** With a window that is not empty, a firing index too close to the end of
    the signal (or too far below its start) puts a position outside
    [[-T, T)]. *)
Lemma window_out_of_range (T l : nat) (k : Z) :
  0 < l → (Z.of_nat T < k + Z.of_nat l ∨ k - Z.of_nat l < - Z.of_nat T)%Z →
  Exists (λ idx, ¬ in_range T idx) (window l k).
Proof.
  intros Hl Hk. unfold window, arange, in_range. apply Exists_exists.
  destruct Hk as [Hhi|Hlo].
  - exists (k + Z.of_nat l - 1)%Z. split; [apply elem_of_seqZ|]; lia.
  - exists (k - Z.of_nat l)%Z. split; [apply elem_of_seqZ|]; lia.
Qed.

Lemma windows_out_of_range (T l : nat) (ks : list Z) (k : Z) :
  0 < l → k ∈ ks → (Z.of_nat T < k + Z.of_nat l ∨ k - Z.of_nat l < - Z.of_nat T)%Z →
  Exists (λ idx, ¬ in_range T idx) (concat (window l <$> ks)).
Proof.
  intros Hl Hin Hk. induction Hin as [k ks|k k' ks _ IH]; csimpl; apply Exists_app.
  - left. by apply window_out_of_range.
  - right. by apply IH.
Qed.

Lemma length_tile {X : Type} (xs : list X) (n : nat) : length (tile xs n) = n * length xs.
Proof.
  unfold tile. induction n as [|n IH]; simpl; [done|]. rewrite length_app, IH. lia.
Qed.

Lemma length_blocks (w : nat) (f : nat → Z) (js : list nat) :
  length (concat ((λ j, full w (f j)) <$> js)) = length js * w.
Proof.
  induction js as [|j js IH]; csimpl; [done|].
  unfold full at 1. rewrite length_app, length_replicate, IH. lia.
Qed.

(** Position [j * w + o] of the concatenation of rows of width [w] is
    position [o] of row [j]. *)
Lemma lookup_concat_uniform {X : Type} (w : nat) (rows : list (list X)) :
  ∀ j o row,
    Forall (λ r, length r = w) rows → rows !! j = Some row → o < w →
    concat rows !! (j * w + o) = row !! o.
Proof.
  induction rows as [|r rows IH]; intros j o row Hw Hj Ho; [done|].
  apply Forall_cons in Hw as [Hr Hw]. destruct j as [|j]; simpl in *.
  - simplify_eq. by rewrite lookup_app_l by lia.
  - rewrite lookup_app_r by lia.
    replace (w + j * w + o - length r) with (j * w + o) by lia. by apply IH.
Qed.

Lemma lookup_windows (l : nat) (ks : list Z) (j o : nat) (k : Z) :
  ks !! j = Some k → o < l * 2 →
  concat (window l <$> ks) !! (j * (l * 2) + o) = Some (k - Z.of_nat l + Z.of_nat o)%Z.
Proof.
  intros Hj Ho.
  rewrite (lookup_concat_uniform (l * 2) _ j o (window l k)); [| |by rewrite list_lookup_fmap, Hj|done].
  - unfold window, arange. apply lookup_seqZ_lt. lia.
  - apply Forall_fmap, Forall_true. intros k'. apply length_window.
Qed.

Lemma lookup_blocks (w n p : nat) :
  p < n * w →
  concat ((λ j, full w (Z.of_nat j)) <$> seq 0 n) !! p = Some (Z.of_nat (p / w)).
Proof.
  intros Hp. assert (0 < w) as Hw by (destruct w; lia).
  assert (p / w < n) as Hj by (apply Nat.Div0.div_lt_upper_bound; lia).
  rewrite (Nat.div_mod_eq p w) at 1. rewrite (Nat.mul_comm w).
  rewrite (lookup_concat_uniform w _ (p / w) (p `mod` w) (full w (Z.of_nat (p / w)))).
  - apply lookup_replicate_2, Nat.mod_upper_bound. lia.
  - apply Forall_fmap, Forall_true. intros j. apply length_replicate.
  - by rewrite list_lookup_fmap, lookup_seq_lt.
  - apply Nat.mod_upper_bound. lia.
Qed.

Lemma count_replicate (w : nat) (x y : Z) :
  length (filter (λ z, z = x) (replicate w y)) = if decide (y = x) then w else 0.
Proof.
  induction w as [|w IH]; simpl; [by case_decide|].
  rewrite filter_cons. destruct (decide (y = x)); simpl; by rewrite IH.
Qed.

(** How often the value [j] occurs in the blocks of the events [i, .., i+n-1]. *)
Lemma count_blocks (w j : nat) :
  ∀ n i,
    length (filter (λ x, x = Z.of_nat j) (concat ((λ j', full w (Z.of_nat j')) <$> seq i n)))
    = if decide (i ≤ j < i + n) then w else 0.
Proof.
  induction n as [|n IH]; intros i; csimpl.
  - by rewrite decide_False by lia.
  - rewrite filter_app, length_app, IH. unfold full. rewrite count_replicate.
    repeat case_decide; lia.
Qed.

Lemma arange_from_0 (n : nat) : arange 0 (Z.of_nat n) = Z.of_nat <$> seq 0 n.
Proof.
  unfold arange, seqZ. rewrite Z.sub_0_r, Nat2Z.id.
  apply list_fmap_ext. intros _ i _. lia.
Qed.

Lemma lookup_tile {X : Type} (xs : list X) (n j o : nat) :
  j < n → o < length xs → tile xs n !! (j * length xs + o) = xs !! o.
Proof.
  intros Hj Ho. unfold tile.
  apply (lookup_concat_uniform (length xs) _ j o xs); [|by apply lookup_replicate_2|done].
  apply Forall_forall. by intros x ->%elem_of_replicate_inv.
Qed.




Section Facts.

Context {A : Type} `{!Inhabited A} (mean : list A → A).
Context {raw_source : Type} (flatten_signal : raw_source → raw_signal A).

Implicit Types (raw : raw_signal A) (a : ndarray) (pt : list ndarray).
Implicit Types (d shape_dict : dict A) (l i j n : nat) (k : Z).

(** ** One motor unit *)

(** Averaging the gathered table column by column is averaging the columns
    of the signal at the positions gathered. *)
Lemma mean_axis0_take (chs : list (list A)) (ixs : list nat) :
  mean_axis0 mean ((λ ch : list A, (λ t : nat, ch !!! t) <$> ixs) <$> chs) (length ixs)
  = (λ t, mean ((λ ch : list A, ch !!! t) <$> chs)) <$> ixs.
Proof.
  unfold mean_axis0. apply list_eq. intros p.
  rewrite !list_lookup_fmap.
  destruct (ixs !! p) as [t|] eqn:Ht; simpl.
  - rewrite lookup_seq_lt by (by eapply lookup_lt_Some). simpl. do 2 f_equal.
    rewrite <- list_fmap_compose. apply list_fmap_ext. intros _ ch _. simpl.
    by rewrite list_lookup_total_alt, list_lookup_fmap, Ht.
  - rewrite lookup_seq_ge; [done|]. by apply lookup_ge_None.
Qed.

(** [muap_shape] on a well-formed 1-d array: the only exception left is
    the index error of [raw[:, ptl]]. *)
Lemma muap_shape_1d raw l a n :
  shape a = [n] → wf_ndarray a →
  muap_shape mean raw l a =
    match mapM (index_axis (n_samples raw)) (concat (window l <$> data a)) with
    | Ok _ => Ok (unit_record mean raw l (data a))
    | Err e => Err e
    end.
Proof.
  intros Hsh Hwf. assert (length (data a) = n) as Hn.
  { unfold wf_ndarray in Hwf. rewrite Hsh in Hwf. simpl in Hwf. lia. }
  unfold muap_shape, shape0. rewrite (iter_axis0_1d a n), Hsh by done. simpl.
  unfold zeros2.
  pose proof (fill_rows_spec l (data a) 0 [] []
    (replicate n (replicate (l * 2) 0%Z)) (replicate n (replicate (l * 2) 0%Z))) as Hfill.
  simpl in Hfill. rewrite Hfill by (by rewrite ?length_replicate). clear Hfill. simpl.
  unfold take_columns, flatten.
  destruct (mapM _ _) as [ixs|e] eqn:Hixs; simpl; [|done].
  apply mapM_index_axis_inv in Hixs as ->.
  assert (length (concat (window l <$> data a)) = n * (l * 2)) as Hlen.
  { by rewrite length_windows, Hn. }
  replace (length (concat (window l <$> data a)))
    with (length (wrap_index (n_samples raw) <$> concat (window l <$> data a)))
    by by rewrite length_fmap.
  rewrite mean_axis0_take. unfold reshape2.
  rewrite decide_True by (by rewrite !length_fmap).
  simpl. rewrite concat_chunks by (by rewrite !length_fmap).
  unfold unit_record, column. rewrite Hn, <- list_fmap_compose. done.
Qed.

(** The same on an array without rows, which holds no item. *)
Lemma muap_shape_closed raw l a :
  wf_ndarray a → rows_are_scalars (shape a) →
  muap_shape mean raw l a =
    match mapM (index_axis (n_samples raw)) (concat (window l <$> data a)) with
    | Ok _ => Ok (unit_record mean raw l (data a))
    | Err e => Err e
    end.
Proof.
  intros Hwf Hrows. destruct (shape a) as [|n [|d rest]] eqn:Hsh; [done| |].
  - by apply (muap_shape_1d raw l a n).
  - destruct n as [|n]; [|done].
    unfold wf_ndarray in Hwf. rewrite Hsh in Hwf. simpl in Hwf.
    apply nil_length_inv in Hwf.
    unfold muap_shape, shape0, iter_axis0. by rewrite Hsh, Hwf.
Qed.

Lemma muap_shape_ok raw l a :
  wf_ndarray a → scalar_rows a → Forall (window_readable (n_samples raw) l) (data a) →
  muap_shape mean raw l (squeeze a) = Ok (unit_record mean raw l (data a)).
Proof.
  intros Hwf Hrows Hwin.
  rewrite (muap_shape_closed raw l (squeeze a)) by auto using wf_squeeze.
  simpl. by rewrite mapM_index_axis_ok by by apply windows_in_range.
Qed.

Lemma muap_shape_index_error raw l a k :
  wf_ndarray a → scalar_rows a → 0 < l → k ∈ data a →
  (Z.of_nat (n_samples raw) < k + Z.of_nat l ∨ k - Z.of_nat l < - Z.of_nat (n_samples raw))%Z →
  muap_shape mean raw l (squeeze a) = Err IndexError_bounds.
Proof.
  intros Hwf Hrows Hl Hin Hk.
  rewrite (muap_shape_closed raw l (squeeze a)) by auto using wf_squeeze.
  simpl. by rewrite (mapM_index_axis_err _ _ (windows_out_of_range _ _ _ _ Hl Hin Hk)).
Qed.

(** A unit of scalar rows either yields its record or fails on an index. *)
Lemma muap_shape_cases raw l a :
  wf_ndarray a → scalar_rows a →
  muap_shape mean raw l (squeeze a) = Ok (unit_record mean raw l (data a))
  ∨ muap_shape mean raw l (squeeze a) = Err IndexError_bounds.
Proof.
  intros Hwf Hrows.
  rewrite (muap_shape_closed raw l (squeeze a)) by auto using wf_squeeze. simpl.
  destruct (decide (Forall (in_range (n_samples raw)) (concat (window l <$> data a))))
    as [Hall|Hsome].
  - left. by rewrite mapM_index_axis_ok.
  - right. apply not_Forall_Exists in Hsome; [|apply _].
    by rewrite mapM_index_axis_err.
Qed.

(** A unit that yields a record has scalar rows and readable windows. *)
Lemma muap_shape_returns raw l a rec :
  wf_ndarray a → muap_shape mean raw l (squeeze a) = Ok rec →
  scalar_rows a ∧ Forall (window_readable (n_samples raw) l) (data a).
Proof.
  intros Hwf Hret. unfold scalar_rows.
  destruct (shape (squeeze a)) as [|n [|d rest]] eqn:Hsh.
  - unfold muap_shape, shape0 in Hret. by rewrite Hsh in Hret.
  - split; [by destruct n|].
    rewrite (muap_shape_1d raw l (squeeze a) n) in Hret by auto using wf_squeeze.
    simpl in Hret.
    destruct (decide (Forall (in_range (n_samples raw)) (concat (window l <$> data a))))
      as [Hall|Hsome].
    + by apply windows_readable.
    + apply not_Forall_Exists in Hsome; [|apply _].
      by rewrite mapM_index_axis_err in Hret.
  - destruct n as [|n].
    + split; [done|]. apply wf_squeeze in Hwf. unfold wf_ndarray in Hwf.
      rewrite Hsh in Hwf. simpl in Hwf. apply nil_length_inv in Hwf.
      simpl in Hwf. rewrite Hwf. constructor.
    + unfold muap_shape, shape0, iter_axis0 in Hret. by rewrite Hsh in Hret.
Qed.

(** ** The loop over the motor units *)

Lemma muap_unit_run raw l i shape_dict pt a :
  pt !! i = Some a →
  muap_unit mean raw l i shape_dict pt =
    match muap_shape mean raw l (squeeze a) with
    | Ok rec => (Ok (dict_set (mu_key (Z.of_nat i)) rec shape_dict), <[i := squeeze a]> pt)
    | Err e => (Err e, <[i := squeeze a]> pt)
    end.
Proof.
  intros Hi. pose proof (lookup_lt_Some _ _ _ Hi) as Hlt.
  unfold muap_unit, mbind, M_bind, pt_get, pt_set, lift, mret, M_ret.
  rewrite Hi, decide_True by done.
  rewrite list_lookup_insert_eq by done.
  by destruct (muap_shape _ _ _ _).
Qed.

(** The stateful loop is the recursion [shapes_from] on the units that
    are still to be visited. *)
Lemma muap_units_spec raw l (units : list ndarray) :
  ∀ (done : list ndarray) i shape_dict,
    length done = i →
    muap_units mean raw l (seq i (length units)) shape_dict (done ++ units) =
      let '(r, pt') := shapes_from mean raw l i units shape_dict in (r, done ++ pt').
Proof.
  induction units as [|a units IH]; intros pre i sd Hlen.
  - done.
  - change (muap_units mean raw l (seq i (length (a :: units))) sd (pre ++ a :: units))
      with ((muap_unit mean raw l i sd
             ≫= muap_units mean raw l (seq (S i) (length units))) (pre ++ a :: units)).
    unfold mbind, M_bind.
    rewrite (muap_unit_run raw l i sd _ a)
      by (by rewrite lookup_app_r, Hlen, Nat.sub_diag by lia).
    rewrite insert_app_r_alt, Hlen, Nat.sub_diag by lia. simpl.
    destruct (muap_shape _ _ _ _) as [rec|e]; [|done].
    rewrite (cons_middle _ pre), app_assoc.
    rewrite IH by (rewrite length_app; simpl; lia).
    destruct (shapes_from _ _ _ _ _ _) as [r pt']. by rewrite <- app_assoc.
Qed.

Lemma muap_dict_shapes_from (raw : raw_source) pt l :
  muap_dict mean flatten_signal raw pt l = shapes_from mean (flatten_signal raw) l 0 pt [].
Proof.
  unfold muap_dict. rewrite (muap_units_spec _ l pt [] 0 []) by done.
  by destruct (shapes_from _ _ _ _ _ _).
Qed.

(** ** The dictionary *)

Lemma dict_set_fresh (key : string) (v : shape_record A) d :
  key ∉ d.*1 → dict_set key v d = d ++ [(key, v)].
Proof.
  induction d as [|[k' v'] d IH]; csimpl; intros Hk; [done|].
  apply not_elem_of_cons in Hk as [Hne Hk].
  rewrite decide_False by done. by rewrite IH.
Qed.

Lemma mu_key_inj (i j : Z) : mu_key i = mu_key j → i = j.
Proof. unfold mu_key. intros H. simplify_eq/=. by apply (inj pretty). Qed.

Lemma entries_cons raw l i a units :
  entries mean raw l i (a :: units)
  = (mu_key (Z.of_nat i), unit_record mean raw l (data a)) :: entries mean raw l (S i) units.
Proof.
  unfold entries. rewrite imap_cons, Nat.add_0_r. f_equal.
  apply imap_ext. intros j a' _. simpl. do 3 f_equal. lia.
Qed.

Lemma entries_keys raw l i units :
  (entries mean raw l i units).*1 = (λ j, mu_key (Z.of_nat j)) <$> seq i (length units).
Proof.
  revert i. induction units as [|a units IH]; intros i; [done|].
  rewrite entries_cons. csimpl. by rewrite IH.
Qed.

Lemma entries_lookup raw l i units j a :
  units !! j = Some a →
  entries mean raw l i units !! j = Some (mu_key (Z.of_nat (i + j)), unit_record mean raw l (data a)).
Proof. intros Hj. unfold entries. by rewrite list_lookup_imap, Hj. Qed.

Lemma entries_get raw l i units j a :
  units !! j = Some a →
  dict_get (mu_key (Z.of_nat (i + j))) (entries mean raw l i units)
  = Ok (unit_record mean raw l (data a)).
Proof.
  revert i j. induction units as [|a' units IH]; intros i j Hj; [done|].
  rewrite entries_cons. destruct j as [|j]; csimpl in *.
  - simplify_eq. by rewrite decide_True by (do 2 f_equal; lia).
  - rewrite decide_False by (intros ?%mu_key_inj; lia).
    replace (i + S j) with (S i + j) by lia. by apply IH.
Qed.

(** ** Readable inputs: what [muap_dict] returns *)

Lemma shapes_from_ok raw l (units : list ndarray) :
  ∀ i shape_dict,
    input_ok raw l units →
    (∀ j, i ≤ j → mu_key (Z.of_nat j) ∉ shape_dict.*1) →
    shapes_from mean raw l i units shape_dict
    = (Ok (shape_dict ++ entries mean raw l i units), squeeze <$> units).
Proof.
  induction units as [|a units IH]; intros i sd Hok Hfresh.
  - simpl. by rewrite app_nil_r.
  - apply Forall_cons in Hok as [(Hwf & Hdim & Hwin) Hok]. simpl.
    rewrite muap_shape_ok by done.
    rewrite dict_set_fresh by (by apply Hfresh).
    rewrite IH; [|done|].
    + by rewrite entries_cons, <- app_assoc.
    + intros j Hj. rewrite fmap_app. csimpl.
      rewrite elem_of_app, list_elem_of_singleton.
      intros [Hin|Heq%mu_key_inj]; [|lia]. eapply Hfresh; [|done]. lia.
Qed.

Lemma shapes_from_returns raw l (units : list ndarray) :
  ∀ i shape_dict d pt',
    Forall wf_ndarray units →
    shapes_from mean raw l i units shape_dict = (Ok d, pt') →
    input_ok raw l units.
Proof.
  induction units as [|a units IH]; intros i sd d pt' Hwf Hret; [constructor|].
  apply Forall_cons in Hwf as [Hwf Hwfs]. simpl in Hret.
  destruct (muap_shape mean raw l (squeeze a)) as [rec|e] eqn:Ha; [|done].
  destruct (shapes_from mean raw l (S i) units _) as [r pt''] eqn:Hrest.
  simplify_eq. apply muap_shape_returns in Ha as [Hrows Hwin]; [|done].
  constructor; [done|]. by eapply IH.
Qed.

(** On a readable input [muap_dict] returns one entry per motor unit, in
    order, and leaves the squeezed arrays in [pt]. *)
Lemma muap_dict_ok (raw : raw_source) pt l :
  input_ok (flatten_signal raw) l pt →
  muap_dict mean flatten_signal raw pt l
  = (Ok (entries mean (flatten_signal raw) l 0 pt), squeeze <$> pt).
Proof.
  intros Hok. rewrite muap_dict_shapes_from, shapes_from_ok; [done..|].
  intros j _. apply not_elem_of_nil.
Qed.

(** The readable inputs are the inputs (of well-formed arrays) on which
    [muap_dict] returns a mapping. *)
Lemma muap_dict_returns_iff (raw : raw_source) pt l :
  Forall wf_ndarray pt →
  (∃ d pt', muap_dict mean flatten_signal raw pt l = (Ok d, pt'))
  ↔ input_ok (flatten_signal raw) l pt.
Proof.
  intros Hwf. split.
  - intros (d & pt' & Hret). rewrite muap_dict_shapes_from in Hret.
    by eapply shapes_from_returns.
  - intros Hok. eexists _, _. by apply muap_dict_ok.
Qed.

(** In a well-formed signal the column at a sample position below
    [n_samples] holds one amplitude of every channel. *)
Lemma column_values raw (t : nat) :
  wf_signal raw → t < n_samples raw →
  Forall2 (λ (ch : list A) v, ch !! t = Some v) (channels raw) (column raw t).
Proof.
  unfold wf_signal, column. intros Hwf Ht.
  apply Forall2_fmap_r, Forall_Forall2_diag.
  eapply Forall_impl; [exact Hwf|]. intros ch Hch. simpl in *.
  apply list_lookup_lookup_total_lt. lia.
Qed.

(** A sample index whose window ends inside the signal is readable, also
    when the window starts before sample 0. *)
Lemma sample_index_readable (T l : nat) k :
  (0 ≤ k)%Z → (k + Z.of_nat l ≤ Z.of_nat T)%Z → window_readable T l k.
Proof. unfold window_readable. lia. Qed.

(** An array with a single firing index is squeezed to 0-d, and reading
    [shape[0]] of it raises: such a unit stops the extractor. *)
Lemma squeeze_single a : wf_ndarray a → length (data a) = 1 → shape (squeeze a) = [].
Proof.
  unfold wf_ndarray, squeeze. simpl. intros -> Hsize.
  induction (shape a) as [|d sh IH]; [done|]. simpl in Hsize.
  apply Nat.eq_mul_1 in Hsize as [-> Hsh].
  rewrite filter_cons, decide_False by lia. by apply IH.
Qed.

Lemma single_event_unit_raises (raw : raw_source) a pt l :
  wf_ndarray a → length (data a) = 1 →
  muap_dict mean flatten_signal raw (a :: pt) l = (Err IndexError_tuple, squeeze a :: pt).
Proof.
  intros Hwf Hone. rewrite muap_dict_shapes_from. simpl.
  unfold muap_shape, shape0. by rewrite squeeze_single.
Qed.

(** ** The shape records *)

(** The mapping of a readable input (the inputs on which the extractor
    returns): with m motor units the returned mapping has
    exactly one entry per unit, in the order of the units, keyed "mu_0",
    "mu_1", ..., "mu_<m-1>", and for a unit with n firing events the three
    sequences [sample], [signal] and [peak] of its record each have length
    n * 2 * half_width. *)
Theorem muap_dict_one_entry_per_unit (raw : raw_source) pt l :
  input_ok (flatten_signal raw) l pt →
  ∃ d pt',
    muap_dict mean flatten_signal raw pt l = (Ok d, pt') ∧
    length d = length pt ∧
    d.*1 = (λ i, mu_key (Z.of_nat i)) <$> seq 0 (length pt) ∧
    ∀ i a, pt !! i = Some a →
      ∃ rec, d !! i = Some (mu_key (Z.of_nat i), rec) ∧
             dict_get (mu_key (Z.of_nat i)) d = Ok rec ∧
             length (sample rec) = length (data a) * 2 * l ∧
             length (signal rec) = length (data a) * 2 * l ∧
             length (peak rec) = length (data a) * 2 * l.
Proof.
  intros Hok. eexists _, _. split; [by apply muap_dict_ok|].
  split; [by rewrite <- (length_fmap fst), entries_keys, length_fmap, length_seq|].
  split; [by apply entries_keys|].
  intros i a Hi. exists (unit_record mean (flatten_signal raw) l (data a)).
  split; [by apply (entries_lookup _ _ 0)|].
  split; [by apply (entries_get _ _ 0)|].
  unfold unit_record. cbn [sample signal peak].
  rewrite length_tile, arange_from_0, !length_fmap, length_seq, length_windows.
  rewrite length_blocks, length_seq. lia.
Qed.

(** The [sample] sequence on a readable input: for a motor unit with n
    firing events the [sample] sequence of its record is 0, 1, ..., 2*half_width - 1 repeated n times, in that order:
    it is that concatenation, and offset o of event j holds o. *)
Theorem sample_cycles_offsets (raw : raw_source) pt l i a :
  input_ok (flatten_signal raw) l pt →
  pt !! i = Some a →
  ∃ d pt' rec,
    muap_dict mean flatten_signal raw pt l = (Ok d, pt') ∧
    dict_get (mu_key (Z.of_nat i)) d = Ok rec ∧
    sample rec = concat (replicate (length (data a)) (Z.of_nat <$> seq 0 (2 * l))) ∧
    ∀ j o, j < length (data a) → o < 2 * l →
      sample rec !! (j * (2 * l) + o) = Some (Z.of_nat o).
Proof.
  intros Hok Hi. eexists _, _, _. split; [by apply muap_dict_ok|].
  split; [by apply (entries_get _ _ 0)|].
  unfold unit_record. cbn [sample signal peak]. rewrite arange_from_0, (Nat.mul_comm l 2).
  split; [done|]. intros j o Hj Ho.
  pose proof (lookup_tile (Z.of_nat <$> seq 0 (2 * l)) (length (data a)) j o) as Ht.
  rewrite length_fmap, length_seq in Ht. rewrite Ht by done.
  by rewrite list_lookup_fmap, lookup_seq_lt.
Qed.

(** The [peak] sequence on a readable input: for a motor unit with n
    firing events the [peak] sequence of its record is event index j repeated 2*half_width times, for j = 0, .., n-1
    in event order; it is non-decreasing, and every value j in [0, n) occurs
    in it exactly 2*half_width times. *)
Theorem peak_blocks (raw : raw_source) pt l i a :
  input_ok (flatten_signal raw) l pt →
  pt !! i = Some a →
  ∃ d pt' rec,
    muap_dict mean flatten_signal raw pt l = (Ok d, pt') ∧
    dict_get (mu_key (Z.of_nat i)) d = Ok rec ∧
    peak rec = concat ((λ j, replicate (2 * l) (Z.of_nat j)) <$> seq 0 (length (data a))) ∧
    (∀ p q x y, p ≤ q → peak rec !! p = Some x → peak rec !! q = Some y → (x ≤ y)%Z) ∧
    (∀ j, j < length (data a) →
       length (filter (λ x, x = Z.of_nat j) (peak rec)) = 2 * l).
Proof.
  intros Hok Hi. eexists _, _, _. split; [by apply muap_dict_ok|].
  split; [by apply (entries_get _ _ 0)|].
  unfold unit_record. cbn [sample signal peak]. set (n := length (data a)).
  split; [by rewrite (Nat.mul_comm l 2)|]. split.
  - intros p q x y Hpq Hp Hq.
    assert (q < n * (l * 2)) as Hqn.
    { apply lookup_lt_Some in Hq. by rewrite length_blocks, length_seq in Hq. }
    rewrite lookup_blocks in Hp, Hq by lia. simplify_eq.
    apply inj_le, Nat.Div0.div_le_mono. done.
  - intros j Hj. rewrite count_blocks, decide_True by lia. lia.
Qed.

(** The [signal] sequence on a readable input: for a raw signal with C
    channels and T samples, a motor unit, its event j with firing index k in [half_width, T - half_width] and a window
    offset o in [0, 2*half_width), the [signal] value at position
    j*2*half_width + o of the unit's record is the mean over the C channels
    of the raw signal at sample k - half_width + o.  (Only the index of event
    j has to lie in that interval; the other windows just have to be
    readable.) *)
Theorem signal_is_channel_mean (raw : raw_source) pt l i a j k o :
  wf_signal (flatten_signal raw) →
  input_ok (flatten_signal raw) l pt →
  pt !! i = Some a →
  data a !! j = Some k →
  (Z.of_nat l ≤ k ≤ Z.of_nat (n_samples (flatten_signal raw)) - Z.of_nat l)%Z →
  o < 2 * l →
  ∃ d pt' rec col,
    muap_dict mean flatten_signal raw pt l = (Ok d, pt') ∧
    dict_get (mu_key (Z.of_nat i)) d = Ok rec ∧
    Forall2 (λ (ch : list A) v, ch !! Z.to_nat (k - Z.of_nat l + Z.of_nat o) = Some v)
            (channels (flatten_signal raw)) col ∧
    signal rec !! (j * 2 * l + o) = Some (mean col).
Proof.
  intros Hwf Hok Hi Hj Hk Ho.
  set (t := Z.to_nat (k - Z.of_nat l + Z.of_nat o)).
  eexists _, _, _, (column (flatten_signal raw) t).
  split; [by apply muap_dict_ok|].
  split; [by apply (entries_get _ _ 0)|].
  split; [apply column_values; [done|lia]|].
  unfold unit_record. cbn [sample signal peak].
  replace (j * 2 * l + o) with (j * (l * 2) + o) by lia.
  rewrite list_lookup_fmap, (lookup_windows l _ j o k) by (done || lia).
  cbn [fmap option_fmap option_map]. do 3 f_equal.
  unfold wrap_index. by rewrite decide_False by lia.
Qed.

(** C10, as the code has it: a firing index k < half_width whose window ends
    inside the signal does not make the extractor raise, when the arrays of
    the input squeeze to one dimension and the other windows can be read as
    well.  On such an input, all of whose windows stay
    within [-T, T) (every sample index 0 <= k with k + half_width <= T is such
    an index) the extractor returns, and the negative window positions
    k - half_width + o < 0 of that event are read T + (k - half_width + o)
    samples into the signal, that is counted from its end: the value stored
    at offset o of the event is the mean over the channels of that late
    sample. *)
Theorem low_index_wraps_around (raw : raw_source) pt l i a j k o :
  wf_signal (flatten_signal raw) →
  input_ok (flatten_signal raw) l pt →
  pt !! i = Some a →
  data a !! j = Some k →
  (k < Z.of_nat l)%Z →
  o < 2 * l →
  (k - Z.of_nat l + Z.of_nat o < 0)%Z →
  ∃ d pt' rec col,
    muap_dict mean flatten_signal raw pt l = (Ok d, pt') ∧
    dict_get (mu_key (Z.of_nat i)) d = Ok rec ∧
    Forall2 (λ (ch : list A) v,
               ch !! Z.to_nat (Z.of_nat (n_samples (flatten_signal raw))
                               + (k - Z.of_nat l + Z.of_nat o)) = Some v)
            (channels (flatten_signal raw)) col ∧
    signal rec !! (j * 2 * l + o) = Some (mean col).
Proof.
  intros Hwf Hok Hi Hj Hk Hw Ho.
  assert (window_readable (n_samples (flatten_signal raw)) l k) as [->|[Hlo Hhi]].
  { eapply Forall_lookup_1; [|exact Hj].
    by eapply (Forall_lookup_1 _ _ _ _ Hok Hi). }
  { lia. }
  set (T := n_samples (flatten_signal raw)) in *.
  set (t := Z.to_nat (Z.of_nat T + (k - Z.of_nat l + Z.of_nat o))).
  eexists _, _, _, (column (flatten_signal raw) t).
  split; [by apply muap_dict_ok|].
  split; [by apply (entries_get _ _ 0)|].
  split; [apply column_values; [done|fold T; lia]|].
  unfold unit_record. cbn [sample signal peak].
  replace (j * 2 * l + o) with (j * (l * 2) + o) by lia.
  rewrite list_lookup_fmap, (lookup_windows l _ j o k) by (done || lia).
  cbn [fmap option_fmap option_map]. do 3 f_equal. unfold wrap_index. rewrite decide_True by lia. fold T. lia.
Qed.

(** ** Calling twice, and indices beyond the signal *)

Lemma shapes_from_twice raw l (units : list ndarray) :
  ∀ i shape_dict,
    shapes_from mean raw l i (shapes_from mean raw l i units shape_dict).2 shape_dict
    = shapes_from mean raw l i units shape_dict.
Proof.
  induction units as [|a units IH]; intros i sd; [done|].
  simpl. destruct (muap_shape mean raw l (squeeze a)) as [rec|e] eqn:Ha.
  - specialize (IH (S i) (dict_set (mu_key (Z.of_nat i)) rec sd)).
    destruct (shapes_from mean raw l (S i) units _) as [r pt'] eqn:Hrest.
    simpl in *. by rewrite squeeze_idemp, Ha, IH.
  - simpl. by rewrite squeeze_idemp, Ha.
Qed.

(** C9: a second call with the same arguments returns what the first call
    returned.  The first call has squeezed the arrays of the caller's [pt] in
    place; the second call gets [pt] as the first one left it, returns the
    same mapping (or raises the same exception) and leaves [pt] as it is. *)
Theorem muap_dict_twice (raw : raw_source) pt l :
  muap_dict mean flatten_signal raw (muap_dict mean flatten_signal raw pt l).2 l
  = muap_dict mean flatten_signal raw pt l.
Proof. rewrite !muap_dict_shapes_from. apply shapes_from_twice. Qed.

Lemma shapes_from_index_error raw l (units : list ndarray) :
  ∀ i shape_dict j a k,
    Forall (λ a, wf_ndarray a ∧ scalar_rows a) units → 0 < l →
    units !! j = Some a → k ∈ data a →
    (Z.of_nat (n_samples raw) < k + Z.of_nat l
     ∨ k - Z.of_nat l < - Z.of_nat (n_samples raw))%Z →
    ∃ pt', shapes_from mean raw l i units shape_dict = (Err IndexError_bounds, pt').
Proof.
  induction units as [|a' units IH]; intros i sd j a k Hunits Hl Hj Hin Hk; [done|].
  apply Forall_cons in Hunits as [[Hwf Hdim] Hunits]. simpl.
  destruct j as [|j]; simpl in Hj.
  - simplify_eq. rewrite (muap_shape_index_error raw l a k) by done. eauto.
  - destruct (muap_shape_cases raw l a' Hwf Hdim) as [-> | ->]; [|eauto].
    edestruct (IH (S i) (dict_set (mu_key (Z.of_nat i))
                 (unit_record mean raw l (data a')) sd) j a k) as [pt' ->]; eauto.
Qed.

(** C5, as the code has it: when the motor units are 1-d arrays, the window
    is not empty and some firing index k has k + half_width > T or
    k - half_width < -T, the extractor fails with the index error of the
    signal read.  (A firing index with -T <= k - half_width < 0 is not
    detected: its window is read from the end of the signal, see C10.) *)
Theorem index_error_beyond_signal (raw : raw_source) pt l i a k :
  Forall (λ a, wf_ndarray a ∧ scalar_rows a) pt →
  0 < l →
  pt !! i = Some a → k ∈ data a →
  (Z.of_nat (n_samples (flatten_signal raw)) < k + Z.of_nat l
   ∨ k - Z.of_nat l < - Z.of_nat (n_samples (flatten_signal raw)))%Z →
  ∃ pt', muap_dict mean flatten_signal raw pt l = (Err IndexError_bounds, pt').
Proof.
  intros Hunits Hl Hi Hin Hk. rewrite muap_dict_shapes_from.
  by eapply shapes_from_index_error.
Qed.

(** ** More on [muap_dict]: where it returns, what it leaves in [pt] *)

(** After readable units the loop goes on with the units that are left. *)
Lemma shapes_from_app raw l (units rest : list ndarray) :
  ∀ i shape_dict,
    input_ok raw l units →
    (∀ j, i ≤ j → mu_key (Z.of_nat j) ∉ shape_dict.*1) →
    shapes_from mean raw l i (units ++ rest) shape_dict
    = let '(r, pt') := shapes_from mean raw l (i + length units) rest
                         (shape_dict ++ entries mean raw l i units) in
      (r, (squeeze <$> units) ++ pt').
Proof.
  induction units as [|a units IH]; intros i sd Hok Hfresh.
  - simpl. rewrite app_nil_r, Nat.add_0_r. by destruct (shapes_from _ _ _ _ _ _).
  - apply Forall_cons in Hok as [(Hwf & Hrows & Hwin) Hok]. simpl.
    rewrite muap_shape_ok by done.
    rewrite dict_set_fresh by (by apply Hfresh).
    rewrite IH; [|done|].
    + rewrite entries_cons, <- app_assoc. simpl.
      replace (i + S (length units)) with (S (i + length units)) by lia.
      by destruct (shapes_from _ _ _ _ _ _).
    + intros j Hj. rewrite fmap_app. csimpl.
      rewrite elem_of_app, list_elem_of_singleton.
      intros [Hin|Heq%mu_key_inj]; [|lia]. eapply Hfresh; [|done]. lia.
Qed.

(** A motor unit that fired exactly once stops the extractor: its array is
    squeezed to 0-d, and [pt[i].shape[0]] raises the index error of the
    empty shape tuple.  The units before it have been squeezed in [pt], the
    units after it are untouched, and no mapping is returned. *)
Theorem single_event_unit_stops (raw : raw_source) (units : list ndarray) a
    (rest : list ndarray) l :
  input_ok (flatten_signal raw) l units →
  wf_ndarray a → length (data a) = 1 →
  muap_dict mean flatten_signal raw (units ++ a :: rest) l
  = (Err IndexError_tuple, (squeeze <$> units) ++ squeeze a :: rest).
Proof.
  intros Hok Hwf Hone. rewrite muap_dict_shapes_from.
  rewrite shapes_from_app; [|done|intros j _; apply not_elem_of_nil].
  simpl. unfold muap_shape, shape0. by rewrite squeeze_single.
Qed.

Lemma shapes_from_prefix raw l (units : list ndarray) :
  ∀ i shape_dict,
    ∃ n, n ≤ length units ∧
         (shapes_from mean raw l i units shape_dict).2
         = (squeeze <$> take n units) ++ drop n units ∧
         (∀ d, (shapes_from mean raw l i units shape_dict).1 = Ok d → n = length units).
Proof.
  induction units as [|a units IH]; intros i sd.
  - exists 0. simpl. auto.
  - simpl. destruct (muap_shape mean raw l (squeeze a)) as [rec|e].
    + destruct (IH (S i) (dict_set (mu_key (Z.of_nat i)) rec sd)) as (n & Hn & Hpt & Hall).
      destruct (shapes_from mean raw l (S i) units _) as [r pt']. simpl in *.
      exists (S n). split; [lia|]. split; [by rewrite Hpt|].
      intros d Hd. f_equal. by eapply Hall.
    + exists 1. simpl. rewrite drop_0. split; [lia|]. split; [done|]. by intros d.
Qed.

(** All that a call changes in the caller's [pt] is the shape of the arrays
    of a prefix of the units, which are squeezed: the units the loop reached.
    The arrays keep their items and their order, and when a mapping is
    returned every unit has been squeezed. *)
Theorem pt_squeezed_prefix (raw : raw_source) pt l :
  ∃ n, n ≤ length pt ∧
       (muap_dict mean flatten_signal raw pt l).2 = (squeeze <$> take n pt) ++ drop n pt ∧
       data <$> (muap_dict mean flatten_signal raw pt l).2 = data <$> pt ∧
       (∀ d, (muap_dict mean flatten_signal raw pt l).1 = Ok d → n = length pt).
Proof.
  rewrite muap_dict_shapes_from.
  destruct (shapes_from_prefix (flatten_signal raw) l pt 0 []) as (n & Hn & Hpt & Hall).
  exists n. split; [done|]. split; [done|]. split; [|done].
  rewrite Hpt, fmap_app, <- list_fmap_compose.
  rewrite <- (take_drop n pt) at 3. by rewrite fmap_app.
Qed.

(** When the arrays of [pt] have no axis of length one (they are 1-d
    already, say), the call leaves [pt] as it is, whether it returns or
    raises. *)
Theorem squeezed_pt_unchanged (raw : raw_source) pt l :
  Forall (λ a, squeeze a = a) pt →
  (muap_dict mean flatten_signal raw pt l).2 = pt.
Proof.
  intros Hsq. destruct (pt_squeezed_prefix raw pt l) as (n & _ & -> & _).
  rewrite <- (take_drop n pt) at 3. f_equal.
  rewrite <- (list_fmap_id (take n pt)) at 2.
  apply list_fmap_ext. intros j a Ha. simpl.
  apply lookup_take_Some in Ha as [Ha _].
  by eapply (Forall_lookup_1 _ _ _ _ Hsq Ha).
Qed.

Lemma shapes_from_same_squeeze raw l (units units' : list ndarray) :
  Forall2 (λ a b, squeeze a = squeeze b) units units' →
  ∀ i shape_dict,
    (shapes_from mean raw l i units shape_dict).1
    = (shapes_from mean raw l i units' shape_dict).1.
Proof.
  induction 1 as [|a b units units' Hab _ IH]; intros i sd; [done|].
  simpl. rewrite Hab. destruct (muap_shape mean raw l (squeeze b)) as [rec|e]; [|done].
  specialize (IH (S i) (dict_set (mu_key (Z.of_nat i)) rec sd)).
  by do 2 destruct (shapes_from mean raw l (S i) _ _).
Qed.

(** The result does not depend on how the firing indices of a unit are laid
    out: a row vector, a column vector and a 1-d array of the same indices
    (arrays with the same squeeze) give the same mapping, or the same
    exception. *)
Theorem layout_does_not_matter (raw : raw_source) (pt pt' : list ndarray) l :
  Forall2 (λ a b, squeeze a = squeeze b) pt pt' →
  (muap_dict mean flatten_signal raw pt l).1 = (muap_dict mean flatten_signal raw pt' l).1.
Proof. intros H. rewrite !muap_dict_shapes_from. by apply shapes_from_same_squeeze. Qed.

(** The motor units are treated one by one: on a readable input the record
    of unit i is the record that a call with that unit alone returns (there
    under the key "mu_0"). *)
Theorem unit_record_is_local (raw : raw_source) pt l i a :
  input_ok (flatten_signal raw) l pt →
  pt !! i = Some a →
  ∃ d pt' d1 pt1 rec,
    muap_dict mean flatten_signal raw pt l = (Ok d, pt') ∧
    muap_dict mean flatten_signal raw [a] l = (Ok d1, pt1) ∧
    dict_get (mu_key (Z.of_nat i)) d = Ok rec ∧
    dict_get (mu_key 0) d1 = Ok rec.
Proof.
  intros Hok Hi.
  assert (input_ok (flatten_signal raw) l [a]) as Hone.
  { constructor; [|constructor]. by eapply (Forall_lookup_1 _ _ _ _ Hok Hi). }
  eexists _, _, _, _, _. split; [by apply muap_dict_ok|].
  split; [by apply muap_dict_ok|].
  split; [by apply (entries_get _ _ 0)|].
  by apply (entries_get _ _ 0 [a] 0).
Qed.

(** Every value of a returned [signal] sequence is the mean over the
    channels of the signal at one sample position inside the signal: no
    value is made up from a position beyond it. *)
Theorem signal_values_from_signal (raw : raw_source) pt l i a :
  wf_signal (flatten_signal raw) →
  input_ok (flatten_signal raw) l pt →
  pt !! i = Some a →
  ∃ d pt' rec,
    muap_dict mean flatten_signal raw pt l = (Ok d, pt') ∧
    dict_get (mu_key (Z.of_nat i)) d = Ok rec ∧
    Forall (λ v, ∃ t col,
              t < n_samples (flatten_signal raw) ∧
              Forall2 (λ (ch : list A) x, ch !! t = Some x)
                      (channels (flatten_signal raw)) col ∧
              v = mean col)
           (signal rec).
Proof.
  intros Hwf Hok Hi. eexists _, _, _. split; [by apply muap_dict_ok|].
  split; [by apply (entries_get _ _ 0)|].
  unfold unit_record. cbn [sample signal peak].
  destruct (Forall_lookup_1 _ _ _ _ Hok Hi) as (_ & _ & Hwin).
  apply Forall_fmap. eapply Forall_impl; [by apply windows_in_range|].
  intros idx Hidx. simpl.
  assert (wrap_index (n_samples (flatten_signal raw)) idx < n_samples (flatten_signal raw)).
  { unfold in_range in Hidx. unfold wrap_index. case_decide; lia. }
  eexists _, _. split; [done|]. split; [by apply column_values|done].
Qed.

(** With half-width 0 nothing is read: whatever the firing indices are, also
    far outside the signal, the call returns, and every record holds three
    empty sequences. *)
Theorem half_width_zero_reads_nothing (raw : raw_source) pt :
  Forall (λ a, wf_ndarray a ∧ scalar_rows a) pt →
  muap_dict mean flatten_signal raw pt 0
  = (Ok (imap (λ i _, (mu_key (Z.of_nat i), ShapeRecord [] [] [])) pt), squeeze <$> pt).
Proof.
  intros Hunits. rewrite muap_dict_ok.
  - f_equal. f_equal. unfold entries. apply imap_ext. intros i a _. simpl. f_equal.
    unfold unit_record, tile, window, arange, full. simpl.
    rewrite seqZ_nil by lia. f_equal.
    + by induction (length (data a)).
    + induction (data a) as [|k ks IH]; [done|]. csimpl. rewrite seqZ_nil by lia. done.
    + generalize 0. induction (length (data a)) as [|n IH]; [done|]. intros j. csimpl. apply IH.
  - eapply Forall_impl; [exact Hunits|]. intros a [Hwf Hrows]. simpl.
    split; [done|]. split; [done|]. apply Forall_true. intros k. by left.
Qed.

(** ** [muap_plot] *)

(** No name [l] is bound in the module. *)
Lemma load_l_viz_globals : load_global "l" viz_globals = Err (NameError "l").
Proof. done. Qed.

(** With [l] bound to an integer the two checks are reached. *)
Lemma muap_plot_in_max_count (genv : namespace) (shape_dict : dict A) mu_index page count
    (lv : Z) (rec : shape_record A) :
  load_global "l" genv = Ok (PyInt lv) →
  dict_get (mu_key mu_index) shape_dict = Ok rec →
  length (sample rec) = length (signal rec) → length (signal rec) = length (peak rec) →
  (count > 12)%Z →
  muap_plot_in genv shape_dict mu_index page count = Ok (Message "Max plots per page is 12").
Proof.
  intros Hl Hrec Hs Hp Hcount. unfold muap_plot_in, DataFrame.
  rewrite Hrec, Hl, bind_Ok, decide_True by done. simpl.
  by rewrite decide_True.
Qed.



Lemma dict_get_missing (key : string) d :
  key ∉ d.*1 → dict_get key d = Err (KeyError key).
Proof.
  induction d as [|[k' v'] d IH]; csimpl; intros Hk; [done|].
  apply not_elem_of_cons in Hk as [Hne Hk].
  rewrite decide_False by done. by apply IH.
Qed.

Lemma unit_record_lengths raw l (ks : list Z) :
  length (sample (unit_record mean raw l ks)) = length ks * (l * 2) ∧
  length (signal (unit_record mean raw l ks)) = length ks * (l * 2) ∧
  length (peak (unit_record mean raw l ks)) = length ks * (l * 2).
Proof.
  unfold unit_record. cbn [sample signal peak].
  rewrite length_tile, arange_from_0, !length_fmap, length_seq, length_windows.
  by rewrite length_blocks, length_seq.
Qed.

Lemma muap_plot_name_error (shape_dict : dict A) mu_index page count (rec : shape_record A) :
  dict_get (mu_key mu_index) shape_dict = Ok rec →
  length (sample rec) = length (signal rec) → length (signal rec) = length (peak rec) →
  muap_plot shape_dict mu_index page count = Err (NameError "l").
Proof.
  intros Hrec Hs Hp. unfold muap_plot, muap_plot_in, DataFrame.
  by rewrite Hrec, load_l_viz_globals, bind_Ok, decide_True.
Qed.

(** ** [muap_dict], then [muap_plot] *)

(** On a table that [muap_dict] returned for m motor units, [muap_plot]
    fails with the undefined-name error for every unit index in [0, m) and
    with the key error of the label for every other index, whatever the page
    and the plots per page. *)
Theorem muap_plot_on_extracted_table (raw : raw_source) pt l :
  input_ok (flatten_signal raw) l pt →
  ∃ d pt',
    muap_dict mean flatten_signal raw pt l = (Ok d, pt') ∧
    ∀ mu_index page count,
      muap_plot d mu_index page count
      = if decide (0 ≤ mu_index < Z.of_nat (length pt))%Z
        then Err (NameError "l") else Err (KeyError (mu_key mu_index)).
Proof.
  intros Hok. eexists _, _. split; [by apply muap_dict_ok|].
  intros mu page count. case_decide as Hmu.
  - destruct (lookup_lt_is_Some_2 pt (Z.to_nat mu)) as [a Ha]; [lia|].
    pose proof (entries_get (flatten_signal raw) l 0 pt _ a Ha) as Hget.
    rewrite Nat.add_0_l, Z2Nat.id in Hget by lia.
    destruct (unit_record_lengths (flatten_signal raw) l (data a)) as (Hs & Hg & Hp).
    eapply muap_plot_name_error; [done|lia..].
  - unfold muap_plot, muap_plot_in. rewrite dict_get_missing; [done|].
    rewrite entries_keys. intros (j & Hj%mu_key_inj & Hin%elem_of_seq)%list_elem_of_fmap.
    lia.
Qed.





(** With [l] bound, more than 12 plots per page get the advisory for every
    page (also page 0 or a negative one) and every entry of the table, since
    the check comes before the last page is computed. *)
Theorem too_many_plots_per_page (genv : namespace) (shape_dict : dict A)
    mu_index page count (lv : Z) (rec : shape_record A) :
  load_global "l" genv = Ok (PyInt lv) →
  dict_get (mu_key mu_index) shape_dict = Ok rec →
  length (sample rec) = length (signal rec) → length (signal rec) = length (peak rec) →
  (count > 12)%Z →
  muap_plot_in genv shape_dict mu_index page count = Ok (Message "Max plots per page is 12").
Proof. apply muap_plot_in_max_count. Qed.

(** With [l] bound, zero plots per page, or a half-width of zero with at
    most 12 plots per page, is not refused with a message: the integer
    division of line 93 raises. *)
Theorem zero_count_divides_by_zero (genv : namespace) (shape_dict : dict A)
    mu_index page count (lv : Z) (rec : shape_record A) :
  load_global "l" genv = Ok (PyInt lv) →
  dict_get (mu_key mu_index) shape_dict = Ok rec →
  length (sample rec) = length (signal rec) → length (signal rec) = length (peak rec) →
  (count ≤ 12)%Z →
  lv = 0%Z ∨ count = 0%Z →
  muap_plot_in genv shape_dict mu_index page count = Err ZeroDivisionError.
Proof.
  intros Hl Hrec Hs Hp Hcount Hzero. unfold muap_plot_in, DataFrame.
  rewrite Hrec, Hl, bind_Ok, decide_True by done. simpl.
  rewrite decide_False by lia. unfold floordiv, pymod.
  destruct (decide ((lv * 2)%Z = 0%Z)); [done|]. simpl.
  destruct Hzero as [->|Hc]; [lia|].
  destruct (decide (count = 0%Z)); [done|lia].
Qed.

(** C8, as the code has it: no call of [muap_plot] returns, neither a chart
    nor a message; when the table has the unit's entry and its three
    sequences have one length, the call reaches the name [l] before any
    validation and fails with the undefined-name error.  (A call for a label
    that is not in the table fails earlier, with a key error.) *)
Theorem muap_plot_never_returns (shape_dict : dict A) (mu_index page count : Z) :
  (∃ e, muap_plot shape_dict mu_index page count = Err e) ∧
  (∀ rec, dict_get (mu_key mu_index) shape_dict = Ok rec →
          length (sample rec) = length (signal rec) →
          length (signal rec) = length (peak rec) →
          muap_plot shape_dict mu_index page count = Err (NameError "l")).
Proof.
  unfold muap_plot, muap_plot_in. rewrite load_l_viz_globals. split.
  - destruct (dict_get _ _) as [rec|e]; [|by eexists].
    rewrite bind_Ok. destruct (DataFrame rec); by eexists.
  - intros rec -> Hs Hp. rewrite bind_Ok. unfold DataFrame.
    by rewrite decide_True.
Qed.

End Facts.

(** * The statements on concrete inputs *)

(** The end-to-end example of the specification: 4 channels of 100 samples,
    one motor unit firing at 20, 50 and 80, half-width 5.  The mean of the
    four channels at sample [t] is [(10 t + 6) / 4]. *)
Example muap_dict_demo :
  muap_dict mean_Q id demo_raw demo_pt 5
  = (Ok [("mu_0",
          ShapeRecord
            (concat (replicate 3 [0; 1; 2; 3; 4; 5; 6; 7; 8; 9]%Z))
            ((λ t, Qred (inject_Z (10 * t + 6) / 4))
               <$> (seqZ 15 10 ++ seqZ 45 10 ++ seqZ 75 10))
            (replicate 10 0 ++ replicate 10 1 ++ replicate 10 2)%Z)],
     [NdArray [3] [20; 50; 80]%Z]).
Proof. by vm_compute. Qed.

(** A motor unit that fired once stops the extractor. *)
Example muap_dict_single_event :
  muap_dict mean_Q id demo_raw [NdArray [1] [50]%Z] 5
  = (Err IndexError_tuple, [NdArray [] [50]%Z]).
Proof. by vm_compute. Qed.

Lemma muap_dict_one_entry_per_unit_witness :
  ∃ d pt',
    muap_dict mean_Q id demo_raw demo_pt 5 = (Ok d, pt') ∧
    length d = 1 ∧
    d.*1 = ["mu_0"] ∧
    ∀ i a, demo_pt !! i = Some a →
      ∃ rec, d !! i = Some (mu_key (Z.of_nat i), rec) ∧
             dict_get (mu_key (Z.of_nat i)) d = Ok rec ∧
             length (sample rec) = length (data a) * 2 * 5 ∧
             length (signal rec) = length (data a) * 2 * 5 ∧
             length (peak rec) = length (data a) * 2 * 5.
Proof.
  apply (muap_dict_one_entry_per_unit mean_Q id demo_raw demo_pt 5).
  unfold input_ok, demo_pt. readable.
Defined.

Lemma sample_cycles_offsets_witness :
  ∃ d pt' rec,
    muap_dict mean_Q id demo_raw demo_pt 5 = (Ok d, pt') ∧
    dict_get "mu_0" d = Ok rec ∧
    sample rec = concat (replicate 3 [0; 1; 2; 3; 4; 5; 6; 7; 8; 9]%Z) ∧
    ∀ j o, j < 3 → o < 10 → sample rec !! (j * 10 + o) = Some (Z.of_nat o).
Proof.
  apply (sample_cycles_offsets mean_Q id demo_raw demo_pt 5 0 demo_unit).
  - unfold input_ok, demo_pt. readable.
  - reflexivity.
Defined.

Lemma peak_blocks_witness :
  ∃ d pt' rec,
    muap_dict mean_Q id demo_raw demo_pt 5 = (Ok d, pt') ∧
    dict_get "mu_0" d = Ok rec ∧
    peak rec = (replicate 10 0 ++ replicate 10 1 ++ replicate 10 2)%Z ∧
    (∀ p q x y, p ≤ q → peak rec !! p = Some x → peak rec !! q = Some y → (x ≤ y)%Z) ∧
    (∀ j, j < 3 → length (filter (λ x, x = Z.of_nat j) (peak rec)) = 10).
Proof.
  apply (peak_blocks mean_Q id demo_raw demo_pt 5 0 demo_unit).
  - unfold input_ok, demo_pt. readable.
  - reflexivity.
Defined.

(** Event 1 fires at sample 50; offset 3 of its window is sample 48, where
    the four channels hold 48, 97, 146 and 195. *)
Lemma signal_is_channel_mean_witness :
  ∃ d pt' rec col,
    muap_dict mean_Q id demo_raw demo_pt 5 = (Ok d, pt') ∧
    dict_get "mu_0" d = Ok rec ∧
    Forall2 (λ (ch : list Q) v, ch !! 48 = Some v) (channels demo_raw) col ∧
    signal rec !! 13 = Some (mean_Q col).
Proof.
  apply (signal_is_channel_mean mean_Q id demo_raw demo_pt 5 0 demo_unit 1 50 3).
  - unfold wf_signal. simpl. repeat constructor.
  - unfold input_ok, demo_pt. readable.
  - reflexivity.
  - reflexivity.
  - simpl. lia.
  - lia.
Defined.

(** Unit 0 of [low_pt] fires at sample 2; offset 1 of its window is position
    -2, read at sample 98. *)
Lemma low_index_wraps_around_witness :
  ∃ d pt' rec col,
    muap_dict mean_Q id demo_raw low_pt 5 = (Ok d, pt') ∧
    dict_get "mu_0" d = Ok rec ∧
    Forall2 (λ (ch : list Q) v, ch !! 98 = Some v) (channels demo_raw) col ∧
    signal rec !! 1 = Some (mean_Q col).
Proof.
  apply (low_index_wraps_around mean_Q id demo_raw low_pt 5 0 low_unit 0 2 1).
  - unfold wf_signal. simpl. repeat constructor.
  - unfold input_ok, low_pt. readable.
  - reflexivity.
  - reflexivity.
  - lia.
  - lia.
  - lia.
Defined.

(** C5 fails on the code: the firing index 2 of unit 0 of [low_pt] violates
    2 - 5 >= 0, and the extractor returns a mapping whose first [signal]
    values are the channel means at samples 97, 98 and 99. *)
Lemma low_index_not_detected :
  low_pt !! 0 = Some low_unit ∧ 2%Z ∈ data low_unit ∧ ¬ (0 ≤ 2 - 5)%Z ∧
  ∃ rec rec',
    muap_dict mean_Q id demo_raw low_pt 5
      = (Ok [("mu_0", rec); ("mu_1", rec')], [low_unit; squeeze demo_unit]) ∧
    take 3 (signal rec)
      = [mean_Q (column demo_raw 97); mean_Q (column demo_raw 98); mean_Q (column demo_raw 99)].
Proof.
  split; [reflexivity|]. split; [apply list_elem_of_here|]. split; [by vm_compute|].
  eexists _, _. split.
  - by vm_compute.
  - by vm_compute.
Qed.

(** The second window of unit 1 of [late_pt] ends at sample 102 > 100. *)
Lemma index_error_beyond_signal_witness :
  ∃ pt', muap_dict mean_Q id demo_raw late_pt 5 = (Err IndexError_bounds, pt').
Proof.
  apply (index_error_beyond_signal mean_Q id demo_raw late_pt 5 1 late_unit 97).
  - unfold late_pt. units_1d.
  - lia.
  - reflexivity.
  - apply list_elem_of_further, list_elem_of_here.
  - left. simpl. lia.
Defined.

(** C8 fails on the code for a label that is not in the table: the call
    stops at the lookup, before the name [l] is read. *)
Lemma muap_plot_missing_unit :
  muap_plot demo_shapes 7 1 12 = Err (KeyError "mu_7") ∧
  muap_plot demo_shapes 7 1 12 ≠ Err (NameError "l").
Proof. split; by vm_compute. Qed.

Lemma muap_plot_never_returns_witness :
  (∃ e, muap_plot demo_shapes 0 1 12 = Err e) ∧
  muap_plot demo_shapes 0 1 12 = Err (NameError "l").
Proof.
  split.
  - exact (proj1 (muap_plot_never_returns demo_shapes 0 1 12)).
  - eapply (proj2 (muap_plot_never_returns demo_shapes 0 1 12)); by vm_compute.
Defined.

(** C7 at [count = 13]: the call fails on the name [l], one line before the
    check that would return the message; with [l] bound the message is
    returned. *)
Theorem max_plots_message_not_reached :
  muap_plot demo_shapes 0 1 13 = Err (NameError "l") ∧
  muap_plot_in (viz_globals_with_l 5) demo_shapes 0 1 13
    = Ok (Message "Max plots per page is 12").
Proof. split; by vm_compute. Qed.

(** C6 on a table of 12 events, 12 plots per page and page 2: the last page
    is 1, so the message "Last page is page 1." is due.  The call fails on
    the name [l]; with [l] bound to the half-width of the table the constant
    147 makes the last page 2 and an empty chart titled "Page 2 of 2" is
    returned. *)
Theorem last_page_not_from_table :
  (∃ rec, dict_get "mu_0" twelve_shapes = Ok rec ∧ spec_last_page rec 12 = 1%Z) ∧
  muap_plot twelve_shapes 0 2 12 = Err (NameError "l") ∧
  muap_plot_in (viz_globals_with_l 1) twelve_shapes 0 2 12
    = Ok (Plot (Chart (ShapeRecord [] [] []) "MUAP Shapes" "Page 2 of 2" (12 / 2)%Q)) ∧
  muap_plot_in (viz_globals_with_l 1) twelve_shapes 0 2 12
    ≠ Ok (Message "Last page is page 1.").
Proof.
  split.
  { eexists. split.
    - by vm_compute.
    - by vm_compute. }
  split; [by vm_compute|]. split; by vm_compute.
Qed.

(** * More statements on concrete inputs *)

Lemma muap_dict_returns_iff_witness :
  (∃ d pt', muap_dict mean_Q id demo_raw late_pt 5 = (Ok d, pt'))
  ↔ input_ok demo_raw 5 late_pt.
Proof.
  apply (muap_dict_returns_iff mean_Q id demo_raw late_pt 5).
  unfold late_pt. units_1d.
Defined.

Lemma single_event_unit_stops_witness :
  muap_dict mean_Q id demo_raw ([demo_unit] ++ NdArray [1; 1] [50]%Z :: [low_unit]) 5
  = (Err IndexError_tuple, [NdArray [3] [20; 50; 80]%Z; NdArray [] [50]%Z; low_unit]).
Proof.
  apply (single_event_unit_stops mean_Q id demo_raw [demo_unit] (NdArray [1; 1] [50]%Z)
           [low_unit] 5).
  - unfold input_ok. readable.
  - reflexivity.
  - reflexivity.
Defined.

Lemma squeezed_pt_unchanged_witness :
  (muap_dict mean_Q id demo_raw [low_unit; late_unit] 5).2 = [low_unit; late_unit].
Proof.
  apply (squeezed_pt_unchanged mean_Q id demo_raw [low_unit; late_unit] 5).
  units_1d.
Defined.

Lemma layout_does_not_matter_witness :
  (muap_dict mean_Q id demo_raw [NdArray [1; 3] [20; 50; 80]%Z] 5).1
  = (muap_dict mean_Q id demo_raw [NdArray [3; 1] [20; 50; 80]%Z] 5).1.
Proof.
  apply (layout_does_not_matter mean_Q id demo_raw).
  repeat constructor.
Defined.

Lemma unit_record_is_local_witness :
  ∃ d pt' d1 pt1 rec,
    muap_dict mean_Q id demo_raw low_pt 5 = (Ok d, pt') ∧
    muap_dict mean_Q id demo_raw [demo_unit] 5 = (Ok d1, pt1) ∧
    dict_get "mu_1" d = Ok rec ∧
    dict_get "mu_0" d1 = Ok rec.
Proof.
  apply (unit_record_is_local mean_Q id demo_raw low_pt 5 1 demo_unit).
  - unfold input_ok, low_pt. readable.
  - reflexivity.
Defined.

Lemma signal_values_from_signal_witness :
  ∃ d pt' rec,
    muap_dict mean_Q id demo_raw low_pt 5 = (Ok d, pt') ∧
    dict_get "mu_0" d = Ok rec ∧
    Forall (λ v, ∃ t col,
              t < 100 ∧
              Forall2 (λ (ch : list Q) x, ch !! t = Some x) (channels demo_raw) col ∧
              v = mean_Q col)
           (signal rec).
Proof.
  apply (signal_values_from_signal mean_Q id demo_raw low_pt 5 0 low_unit).
  - unfold wf_signal. simpl. repeat constructor.
  - unfold input_ok, low_pt. readable.
  - reflexivity.
Defined.

Lemma half_width_zero_reads_nothing_witness :
  muap_dict mean_Q id demo_raw [NdArray [2] [1000; -7]%Z] 0
  = (Ok [("mu_0", ShapeRecord [] [] [])], [NdArray [2] [1000; -7]%Z]).
Proof.
  apply (half_width_zero_reads_nothing mean_Q id demo_raw [NdArray [2] [1000; -7]%Z]).
  units_1d.
Defined.

Lemma muap_plot_on_extracted_table_witness :
  ∃ d pt',
    muap_dict mean_Q id demo_raw demo_pt 5 = (Ok d, pt') ∧
    ∀ mu_index page count,
      muap_plot d mu_index page count
      = if decide (0 ≤ mu_index < 1)%Z
        then Err (NameError "l") else Err (KeyError (mu_key mu_index)).
Proof.
  apply (muap_plot_on_extracted_table mean_Q id demo_raw demo_pt 5).
  unfold input_ok, demo_pt. readable.
Defined.



Lemma too_many_plots_per_page_witness :
  muap_plot_in (viz_globals_with_l 5) demo_shapes 0 0 13
  = Ok (Message "Max plots per page is 12").
Proof.
  eapply (too_many_plots_per_page (viz_globals_with_l 5) demo_shapes 0 0 13 5).
  - reflexivity.
  - vm_compute. reflexivity.
  - by vm_compute.
  - by vm_compute.
  - lia.
Defined.

Lemma zero_count_divides_by_zero_witness :
  muap_plot_in (viz_globals_with_l 5) demo_shapes 0 1 0 = Err ZeroDivisionError.
Proof.
  eapply (zero_count_divides_by_zero (viz_globals_with_l 5) demo_shapes 0 1 0 5).
  - reflexivity.
  - vm_compute. reflexivity.
  - by vm_compute.
  - by vm_compute.
  - lia.
  - by right.
Defined.

(** * Motor units that fired once *)

(** Line 33 squeezes the array of a unit to drop the axes of length one that
    a row or column vector has; on an array with a single firing index it
    drops every axis, and line 36 reads [shape[0]] of the 0-d array that is
    left.  The docstring promises the shapes of each motor unit. *)

(** C1 at a unit that fired once, at sample 50 (half-width 5, 100 samples, so
    the index lies in [5, 95]): no record is returned, the call raises.  The
    same index in a unit with a second event has its values: offset 3 of
    event 0 holds the channel mean at sample 48. *)
Theorem single_event_unit_has_no_signal :
  (5 ≤ 50 ≤ 100 - 5)%Z ∧
  muap_dict mean_Q id demo_raw [NdArray [1] [50]%Z] 5
  = (Err IndexError_tuple, [NdArray [] [50]%Z]) ∧
  ∃ rec,
    muap_dict mean_Q id demo_raw [NdArray [2] [50; 80]%Z] 5
    = (Ok [("mu_0", rec)], [NdArray [2] [50; 80]%Z]) ∧
    signal rec !! 3 = Some (mean_Q (column demo_raw 48)).
Proof.
  split; [lia|]. split; [by vm_compute|].
  eexists. split.
  - by vm_compute.
  - by vm_compute.
Qed.

(** C2 at two motor units, the second of which fired once: no mapping is
    returned, where two entries are due. *)
Theorem single_event_unit_leaves_no_mapping :
  muap_dict mean_Q id demo_raw [demo_unit; NdArray [1; 1] [50]%Z] 5
  = (Err IndexError_tuple, [NdArray [3] [20; 50; 80]%Z; NdArray [] [50]%Z]) ∧
  ∃ rec rec',
    muap_dict mean_Q id demo_raw [demo_unit; NdArray [1; 2] [50; 60]%Z] 5
    = (Ok [("mu_0", rec); ("mu_1", rec')],
       [NdArray [3] [20; 50; 80]%Z; NdArray [2] [50; 60]%Z]) ∧
    length (sample rec') = 2 * 2 * 5 ∧ length (signal rec') = 2 * 2 * 5 ∧
    length (peak rec') = 2 * 2 * 5.
Proof.
  split; [by vm_compute|].
  eexists _, _. split.
  - by vm_compute.
  - by vm_compute.
Qed.

(** C3 at n = 1: the [sample] sequence 0, .., 9 is due once, and the call
    raises; at n = 2 it is there twice. *)
Theorem single_event_unit_has_no_sample :
  muap_dict mean_Q id demo_raw [NdArray [1] [20]%Z] 5
  = (Err IndexError_tuple, [NdArray [] [20]%Z]) ∧
  ∃ rec,
    muap_dict mean_Q id demo_raw [NdArray [2] [20; 50]%Z] 5
    = (Ok [("mu_0", rec)], [NdArray [2] [20; 50]%Z]) ∧
    sample rec = ([0; 1; 2; 3; 4; 5; 6; 7; 8; 9] ++ [0; 1; 2; 3; 4; 5; 6; 7; 8; 9])%Z.
Proof.
  split; [by vm_compute|].
  eexists. split.
  - by vm_compute.
  - by vm_compute.
Qed.

(** C4 at n = 1: the [peak] sequence of ten zeros is due, and the call
    raises; at n = 2 the two blocks are there. *)
Theorem single_event_unit_has_no_peak :
  muap_dict mean_Q id demo_raw [NdArray [1; 1] [80]%Z] 5
  = (Err IndexError_tuple, [NdArray [] [80]%Z]) ∧
  ∃ rec,
    muap_dict mean_Q id demo_raw [NdArray [1; 2] [50; 80]%Z] 5
    = (Ok [("mu_0", rec)], [NdArray [2] [50; 80]%Z]) ∧
    peak rec = (replicate 10 0 ++ replicate 10 1)%Z.
Proof.
  split; [by vm_compute|].
  eexists. split.
  - by vm_compute.
  - by vm_compute.
Qed.

(** C10 fails on the code: a unit that holds the firing index 2 < 5, whose
    window ends at sample 7 of 100, makes the extractor raise when its other
    firing index, 97, has a window that ends after the signal, and when it
    holds no other firing index. *)
Lemma low_index_unit_can_raise :
  (2 < 5 ∧ 2 + 5 ≤ 100)%Z ∧
  muap_dict mean_Q id demo_raw [NdArray [2] [2; 97]%Z] 5
  = (Err IndexError_bounds, [NdArray [2] [2; 97]%Z]) ∧
  muap_dict mean_Q id demo_raw [NdArray [1] [2]%Z] 5
  = (Err IndexError_tuple, [NdArray [] [2]%Z]).
Proof. split; [lia|]. split; by vm_compute. Qed.
